(** * Bing Results Scraper, background script

    A shallow embedding of [tools/Bing Results Scraper/background.js]:
    the fetch wrapper [fetchUrlContent], the message listener registered
    with [chrome.runtime.onMessage], the per-domain rate limiter
    [canFetchUrl] and the periodic clean-up of [urlFetchHistory].

    What the browser supplies ([fetch], [new URL(..).hostname],
    [Date.now()]) is a parameter of the model; what the script itself
    computes is written out as the script has it.  [console.*] calls have
    no influence on results or state and are left out. *)

From Stdlib Require Import ZArith NArith String Ascii List Bool Lia.
From stdpp Require Import gmap strings list fin_maps pretty.
Import ListNotations.

Local Open Scope string_scope.
Local Open Scope list_scope.
Local Open Scope Z_scope.

(** ** JavaScript values as far as the script uses them *)

Module Js.

(** Numbers that reach the script: integer-valued ones and [NaN]. *)
Inductive number : Type :=
| NaN
| Num (z : Z).

Inductive value : Type :=
| VUndefined
| VNull
| VBool (b : bool)
| VNumber (n : number)
| VString (s : string).

(** ToBoolean. *)
Definition truthy (v : value) : bool :=
  match v with
  | VUndefined | VNull => false
  | VBool b => b
  | VNumber NaN => false
  | VNumber (Num z) => negb (z =? 0)
  | VString s => negb (String.eqb s "")
  end.

(** [a || b]. *)
Definition or (a b : value) : value := if truthy a then a else b.

(** [v === 'literal']. *)
Definition strict_eq_string (v : value) (lit : string) : bool :=
  match v with
  | VString s => String.eqb s lit
  | _ => false
  end.

(** [hay.includes(needle)]: [needle] occurs somewhere in [hay]. *)
Fixpoint includes (hay needle : string) : bool :=
  String.prefix needle hay
  || match hay with
     | EmptyString => false
     | String _ rest => includes rest needle
     end.

(** [s || ''] for a string that may be [null]. *)
Definition or_empty (s : option string) : string :=
  match s with
  | Some s => s
  | None => ""
  end.

(** [s || fallback] for a string. *)
Definition string_or (s fallback : string) : string :=
  if String.eqb s "" then fallback else s.

End Js.

(** A thrown value: the [Error] / [DOMException] objects that [fetch] and
    [response.text()] reject with carry a [name] and a [message]. *)
Module Error.
Record t : Type := mk { name : string; message : string }.
End Error.

(** How an awaited promise settles. *)
Inductive settled (A : Type) : Type :=
| Fulfilled (a : A)
| Rejected (e : Error.t).
Arguments Fulfilled {A} a.
Arguments Rejected {A} e.

(** The part of a [Response] the script looks at.  [headers] is keyed by
    lower-case header name, as [Headers.get] looks names up; [text] is how
    [response.text()] settles. *)
Module Response.
Record t : Type := mk {
  status : N;
  statusText : string;
  headers : gmap string string;
  text : settled string
}.

(** [response.ok]: the status is in the range 200-299. *)
Definition ok (r : t) : bool := (200 <=? status r)%N && (status r <=? 299)%N.

(** [response.headers.get(name)], [None] for [null]. *)
Definition headers_get (r : t) (name : string) : option string :=
  headers r !! name.
End Response.

(** [{content, error}], [error = None] for [null]. *)
Module FetchResult.
Record t : Type := mk { content : string; error : option string }.
End FetchResult.

(** What the listener hands to [sendResponse]. *)
Inductive reply : Type :=
| ReplyFetch (r : FetchResult.t)
| ReplyStatus (status : string).

(** Calls into the browser, in the order the script makes them.  [Await]
    marks the point where an [async] function suspends. *)
Inductive event : Type :=
| SetTimeout (ms : Js.value)
| Fetch (url : Js.value)
| ClearTimeout
| ReadText
| Await
| SendResponse (r : reply).

(** Kinds of event, for counting them in a trace. *)
Definition is_Fetch (e : event) : bool :=
  match e with
  | Fetch _ => true
  | _ => false
  end.

Definition is_SetTimeout (e : event) : bool :=
  match e with
  | SetTimeout _ => true
  | _ => false
  end.


(** ** Code that may throw and that calls the browser *)

Definition exec (A : Type) : Type := (list event * settled A)%type.

Definition ret {A} (a : A) : exec A := ([], Fulfilled a).

Definition bind {A B} (m : exec A) (k : A -> exec B) : exec B :=
  match m with
  | (tr, Fulfilled a) => let (tr', r) := k a in (tr ++ tr', r)
  | (tr, Rejected e) => (tr, Rejected e)
  end.

Definition emit (e : event) : exec unit := ([e], Fulfilled tt).

(** [await p]: suspend, then continue with the value or throw. *)
Definition await {A} (p : settled A) : exec A := ([Await], p).

(** [try { body } catch (error) { handler }]. *)
Definition try_catch {A} (body : exec A) (handler : Error.t -> exec A) : exec A :=
  match body with
  | (tr, Fulfilled a) => (tr, Fulfilled a)
  | (tr, Rejected e) => let (tr', r) := handler e in (tr ++ tr', r)
  end.

Declare Scope exec_scope.
Delimit Scope exec_scope with exec.
Notation "x <- m ;; k" := (bind m (fun x => k))
  (at level 100, m at next level, right associativity) : exec_scope.
Notation "m ;; k" := (bind m (fun _ => k))
  (at level 100, right associativity) : exec_scope.

(** ** The script's only mutable state: [urlFetchHistory]

    [const urlFetchHistory = new Map()], hostname to the [Date.now()] of the
    last permitted fetch.  Functions of the script that can reach it are
    written in [state]. *)

Definition state (A : Type) : Type := gmap string Z -> A * gmap string Z.

Definition pure {A} (a : A) : state A := fun h => (a, h).

Definition sbind {A B} (m : state A) (k : A -> state B) : state B :=
  fun h => let (a, h') := m h in k a h'.

(** [urlFetchHistory.get(domain)], [None] for [undefined]. *)
Definition history_get (domain : string) : state (option Z) :=
  fun h => (h !! domain, h).

(** [urlFetchHistory.set(domain, now)]. *)
Definition history_set (domain : string) (now : Z) : state unit :=
  fun h => (tt, <[domain := now]> h).

(** [urlFetchHistory.delete(domain)]. *)
Definition history_delete (domain : string) : state unit :=
  fun h => (tt, delete domain h).

(** [urlFetchHistory.entries()]. *)
Definition history_entries : state (list (string * Z)) :=
  fun h => (map_to_list h, h).

Declare Scope state_scope.
Delimit Scope state_scope with state.
Notation "x <- m ;; k" := (sbind m (fun x => k))
  (at level 100, m at next level, right associativity) : state_scope.
Notation "m ;; k" := (sbind m (fun _ => k))
  (at level 100, right associativity) : state_scope.

(** [for (const x of xs) body(x)]. *)
Fixpoint for_of {A} (xs : list A) (body : A -> state unit) : state unit :=
  match xs with
  | [] => pure tt
  | x :: rest => (body x ;; for_of rest body)%state
  end.

(** ** Constants *)

Definition CONTENT_TIMEOUT : Z := 15000.
Definition RATE_LIMIT_MS : Z := 1000.

(** The events of a trace before and after the first suspension. *)
Fixpoint before_await (tr : list event) : list event :=
  match tr with
  | [] => []
  | Await :: _ => []
  | e :: rest => e :: before_await rest
  end.

Fixpoint after_await (tr : list event) : list event :=
  match tr with
  | [] => []
  | Await :: rest => rest
  | _ :: rest => after_await rest
  end.

(** ** Messages *)

Module Message.
Record t : Type := mk {
  action : Js.value;
  url : Js.value;
  timeout : Js.value
}.
End Message.

(** [sender.tab] is an object (here its id) or absent. *)
Module Sender.
Record t : Type := mk { tab : option Z }.

(** [sender.tab] used as a condition. *)
Definition has_tab (s : t) : bool :=
  match tab s with
  | Some _ => true
  | None => false
  end.
End Sender.

(** What one run of the listener does: the browser calls made before it
    returns, the value it returns, and the calls made later, from the
    promise callbacks. *)
Record dispatch : Type := mkDispatch {
  sync_events : list event;
  returned : bool;
  async_events : list event
}.

(** ** The script *)

Section Background.

(** [fetch url init] with [init.signal] aborted after [timeout] ms: the
    browser decides how the promise settles. *)
Variable fetch : Js.value -> Js.value -> settled Response.t.

(** [new URL(url).hostname], [None] when the constructor throws. *)
Variable URL_hostname : string -> option string.

(** *** CONTENT FETCHING *)

(** The [catch] block of [fetchUrlContent]. *)
Definition errorMessage (error : Error.t) : string :=
  if String.eqb (Error.name error) "AbortError" then "Request timeout"
  else if Js.includes (Error.message error) "Failed to fetch" then
    "Network error or CORS blocked"
  else if Js.includes (Error.message error) "TypeError" then
    "Invalid URL or network error"
  else Error.message error.

(** The default parameter [timeout = CONTENT_TIMEOUT]: it applies when
    the argument is [undefined]. *)
Definition timeout_param (timeout : Js.value) : Js.value :=
  match timeout with
  | Js.VUndefined => Js.VNumber (Js.Num CONTENT_TIMEOUT)
  | _ => timeout
  end.

Definition fetchUrlContent (url : Js.value) (timeout : Js.value)
  : exec FetchResult.t :=
  let timeout := timeout_param timeout in
  try_catch
    (emit (SetTimeout timeout) ;;
     emit (Fetch url) ;;
     response <- await (fetch url timeout) ;;
     emit ClearTimeout ;;
     if negb (Response.ok response) then
       ret {| FetchResult.content := "";
              FetchResult.error :=
                Some ("HTTP " +:+ pretty (Response.status response)
                      +:+ ": " +:+ Response.statusText response) |}
     else
       let contentType :=
         Js.or_empty (Response.headers_get response "content-type") in
       if negb (Js.includes contentType "text/html") then
         ret {| FetchResult.content := "";
                FetchResult.error :=
                  Some ("Unsupported content type: " +:+ contentType) |}
       else
         (emit ReadText ;;
          html <- await (Response.text response) ;;
          ret {| FetchResult.content := html;
                 FetchResult.error := None |}))%exec
    (fun error =>
       ret {| FetchResult.content := "";
              FetchResult.error := Some (errorMessage error) |}).

(** The lines of [fetchUrlContent] that run once [await fetch(..)] has
    produced a response, with the two endings of [response.text()]
    spelled out: the events, and the object returned.
    [fetchUrlContent_cases] below relates it to [fetchUrlContent]. *)
Definition after_response (response : Response.t)
  : list event * FetchResult.t :=
  if negb (Response.ok response) then
    ([ClearTimeout],
     {| FetchResult.content := "";
        FetchResult.error :=
          Some ("HTTP " +:+ pretty (Response.status response)
                +:+ ": " +:+ Response.statusText response) |})
  else if negb (Js.includes
                  (Js.or_empty (Response.headers_get response "content-type"))
                  "text/html") then
    ([ClearTimeout],
     {| FetchResult.content := "";
        FetchResult.error :=
          Some ("Unsupported content type: "
                +:+ Js.or_empty (Response.headers_get response "content-type")) |})
  else
    ([ClearTimeout; ReadText; Await],
     match Response.text response with
     | Fulfilled html =>
         {| FetchResult.content := html; FetchResult.error := None |}
     | Rejected error =>
         {| FetchResult.content := "";
            FetchResult.error := Some (errorMessage error) |}
     end).

(** *** COMMUNICATION RELAY *)

(** The listener passed to [chrome.runtime.onMessage.addListener]. *)
Definition onMessage (message : Message.t) (sender : Sender.t)
  : state dispatch :=
  if Js.strict_eq_string (Message.action message) "fetchContent" then
    let (tr, outcome) :=
      fetchUrlContent (Message.url message)
        (Js.or (Message.timeout message)
               (Js.VNumber (Js.Num CONTENT_TIMEOUT))) in
    let response :=
      match outcome with
      | Fulfilled result => ReplyFetch result
      | Rejected error =>
          ReplyFetch
            {| FetchResult.content := "";
               FetchResult.error :=
                 Some (Js.string_or (Error.message error) "Unknown error") |}
      end in
    pure {| sync_events := before_await tr;
            returned := true;
            async_events := after_await tr ++ [SendResponse response] |}
  else if Sender.has_tab sender
          && (Js.strict_eq_string (Message.action message) "scrapingComplete"
              || Js.strict_eq_string (Message.action message) "scrapingError"
              || Js.strict_eq_string (Message.action message) "progressUpdate"
              || Js.strict_eq_string (Message.action message) "queryError")
  then
    pure {| sync_events := []; returned := false; async_events := [] |}
  else if Js.strict_eq_string (Message.action message) "backgroundPing" then
    pure {| sync_events := [SendResponse (ReplyStatus "background active")];
            returned := true;
            async_events := [] |}
  else
    pure {| sync_events := []; returned := false; async_events := [] |}.

(** *** Rate limiting for content fetching *)

(** [!lastFetch || (now - lastFetch) >= RATE_LIMIT_MS]: [!lastFetch]
    holds for [undefined] and for the number 0. *)
Definition rate_check (lastFetch : option Z) (now : Z) : bool :=
  match lastFetch with
  | None => true
  | Some t => (t =? 0) || (RATE_LIMIT_MS <=? now - t)
  end.

(** [now] is what [Date.now()] returns during the call. *)
Definition canFetchUrl (url : string) (now : Z) : state bool :=
  match URL_hostname url with
  | Some domain =>
      (lastFetch <- history_get domain ;;
       if rate_check lastFetch now then
         (history_set domain now ;; pure true)
       else pure false)%state
  | None => pure true
  end.

(** The callback of the second [setInterval], run every 10 minutes. *)
Definition cleanup (now : Z) : state unit :=
  let cutoff := now - 60 * 60 * 1000 in
  (entries <- history_entries ;;
   for_of entries (fun '(domain, timestamp) =>
     if timestamp <? cutoff then history_delete domain else pure tt))%state.

(** Values [urlFetchHistory] can take while the script runs: it starts
    empty and only [canFetchUrl] and the clean-up write to it.  [Date.now()]
    counts milliseconds since 1 January 1970 and is positive. *)
Inductive reachable : gmap string Z -> Prop :=
| reachable_init : reachable ∅
| reachable_canFetchUrl h url now :
    reachable h -> 0 < now -> reachable (snd (canFetchUrl url now h))
| reachable_cleanup h now :
    reachable h -> reachable (snd (cleanup now h)).

End Background.

(** A caller that asks [canFetchUrl] about one URL after the other; each
    request comes with the [Date.now()] of its moment, and the answers are
    collected in order. *)
Fixpoint canFetchUrl_calls (URL_hostname : string -> option string)
    (requests : list (string * Z)) : state (list bool) :=
  match requests with
  | [] => pure []
  | (url, now) :: rest =>
      (answer <- canFetchUrl URL_hostname url now ;;
       answers <- canFetchUrl_calls URL_hostname rest ;;
       pure (answer :: answers))%state
  end.

(** ** Concrete browsers for the examples

    Responses and stand-ins for [fetch] and [new URL(..).hostname] on which
    the script is run below; the hostname table lists the few addresses the
    examples use and rejects every other string. *)

Module Fixture.

Definition page_url : Js.value := Js.VString "https://example.com/a".

Definition not_found_json : Response.t :=
  {| Response.status := 404%N;
     Response.statusText := "Not Found";
     Response.headers := {[ "content-type" := "application/json" ]};
     Response.text := Fulfilled "{}" |}.

Definition ok_json : Response.t :=
  {| Response.status := 200%N;
     Response.statusText := "OK";
     Response.headers := {[ "content-type" := "application/json" ]};
     Response.text := Fulfilled "{}" |}.

Definition ok_html : Response.t :=
  {| Response.status := 200%N;
     Response.statusText := "OK";
     Response.headers := {[ "content-type" := "text/html; charset=utf-8" ]};
     Response.text := Fulfilled "<html></html>" |}.

Definition ok_untyped : Response.t :=
  {| Response.status := 200%N;
     Response.statusText := "OK";
     Response.headers := ∅;
     Response.text := Fulfilled "<html></html>" |}.

(** A [fetch] that settles the same way for every request. *)
Definition fetch_always (outcome : settled Response.t)
  : Js.value -> Js.value -> settled Response.t :=
  fun _ _ => outcome.

(** The [TypeError] Chrome raises for an address it cannot parse. *)
Definition parse_failure : Error.t :=
  {| Error.name := "TypeError";
     Error.message := "Failed to parse URL from http://" |}.

(** An [AbortError] whose message happens to mention a failed fetch. *)
Definition aborted : Error.t :=
  {| Error.name := "AbortError";
     Error.message := "Failed to fetch: aborted" |}.

(** The [TypeError] Chrome raises when the network request fails. *)
Definition failed_to_fetch : Error.t :=
  {| Error.name := "TypeError"; Error.message := "Failed to fetch" |}.

Definition stream_failure : Error.t :=
  {| Error.name := "TypeError"; Error.message := "network error" |}.

(** An OK HTML response whose body cannot be read. *)
Definition ok_html_unreadable : Response.t :=
  {| Response.status := 200%N;
     Response.statusText := "OK";
     Response.headers := {[ "content-type" := "text/html" ]};
     Response.text := Rejected stream_failure |}.

Definition hostname_table (url : string) : option string :=
  if String.eqb url "https://a.com/x" then Some "a.com"
  else if String.eqb url "https://a.com/y" then Some "a.com"
  else if String.eqb url "https://b.org/" then Some "b.org"
  else None.

Definition fetch_message (timeout : Js.value) : Message.t :=
  {| Message.action := Js.VString "fetchContent";
     Message.url := page_url;
     Message.timeout := timeout |}.

Definition side_panel : Sender.t := {| Sender.tab := None |}.

End Fixture.

(** ** The fetch wrapper *)

Section FetchWrapper.

Variable fetch : Js.value -> Js.value -> settled Response.t.

(** [fetchUrlContent], one case per way the request can end. *)
Lemma fetchUrlContent_cases url timeout :
  fetchUrlContent fetch url timeout =
  let t := timeout_param timeout in
  match fetch url t with
  | Rejected error =>
      ([SetTimeout t; Fetch url; Await],
       Fulfilled {| FetchResult.content := "";
                    FetchResult.error := Some (errorMessage error) |})
  | Fulfilled response =>
      ([SetTimeout t; Fetch url; Await] ++ fst (after_response response),
       Fulfilled (snd (after_response response)))
  end.
Proof.
  unfold fetchUrlContent, after_response; cbn zeta.
  destruct (fetch url (timeout_param timeout)) as [response | error];
    [| reflexivity].
  cbn [await bind emit try_catch app].
  destruct (negb (Response.ok response)); [reflexivity |].
  destruct (negb (Js.includes _ _)); [reflexivity |].
  cbn.
  destruct (Response.text response); reflexivity.
Qed.

(** The promise returned by [fetchUrlContent] is never rejected. *)
Lemma fetchUrlContent_fulfilled url timeout :
  exists result, snd (fetchUrlContent fetch url timeout) = Fulfilled result.
Proof.
  rewrite fetchUrlContent_cases; cbn zeta.
  destruct (fetch url (timeout_param timeout)); eexists; reflexivity.
Qed.

(** Up to the first suspension the wrapper arms the timer and issues the
    request. *)
Lemma fetchUrlContent_before_await url timeout :
  before_await (fst (fetchUrlContent fetch url timeout)) =
  [SetTimeout (timeout_param timeout); Fetch url].
Proof.
  rewrite fetchUrlContent_cases; cbn zeta.
  destruct (fetch url (timeout_param timeout)); reflexivity.
Qed.

(** Every result the [catch] block builds has empty content. *)
Lemma after_response_error_content response :
  FetchResult.error (snd (after_response response)) <> None ->
  FetchResult.content (snd (after_response response)) = "".
Proof.
  unfold after_response.
  destruct (negb (Response.ok response)); [reflexivity |].
  destruct (negb (Js.includes _ _)); [reflexivity |].
  destruct (Response.text response); cbn; [congruence | reflexivity].
Qed.

End FetchWrapper.

(** *** The [catch] block, case by case *)

Lemma errorMessage_abort error :
  Error.name error = "AbortError" -> errorMessage error = "Request timeout".
Proof. unfold errorMessage; intros ->; reflexivity. Qed.

Lemma errorMessage_failed_to_fetch error :
  Error.name error <> "AbortError" ->
  Js.includes (Error.message error) "Failed to fetch" = true ->
  errorMessage error = "Network error or CORS blocked".
Proof.
  unfold errorMessage; intros Hname ->.
  destruct (String.eqb_spec (Error.name error) "AbortError"); [done | reflexivity].
Qed.

Lemma errorMessage_mentions_TypeError error :
  Error.name error <> "AbortError" ->
  Js.includes (Error.message error) "Failed to fetch" = false ->
  Js.includes (Error.message error) "TypeError" = true ->
  errorMessage error = "Invalid URL or network error".
Proof.
  unfold errorMessage; intros Hname -> ->.
  destruct (String.eqb_spec (Error.name error) "AbortError"); [done | reflexivity].
Qed.

Lemma errorMessage_other error :
  Error.name error <> "AbortError" ->
  Js.includes (Error.message error) "Failed to fetch" = false ->
  Js.includes (Error.message error) "TypeError" = false ->
  errorMessage error = Error.message error.
Proof.
  unfold errorMessage; intros Hname -> ->.
  destruct (String.eqb_spec (Error.name error) "AbortError"); [done | reflexivity].
Qed.

(** Closes [e ∉ tr] for an explicit trace [tr] in which [e] does not occur. *)
Ltac event_not_in_trace :=
  let H := fresh in
  intros H;
  repeat (apply elem_of_cons in H as [H | H]; [discriminate H |]);
  apply elem_of_nil in H; exact H.

(** *** Claims about the fetch wrapper *)

(** C4.  When the request ends with a response whose status is not OK,
    [fetchUrlContent] returns empty content and the error
    ["HTTP <status>: <statusText>"]. *)
Theorem fetchUrlContent_http_error
    (fetch : Js.value -> Js.value -> settled Response.t)
    (url timeout : Js.value) (response : Response.t) :
  fetch url (timeout_param timeout) = Fulfilled response ->
  Response.ok response = false ->
  snd (fetchUrlContent fetch url timeout) =
  Fulfilled {| FetchResult.content := "";
               FetchResult.error :=
                 Some ("HTTP " +:+ pretty (Response.status response)
                       +:+ ": " +:+ Response.statusText response) |}.
Proof.
  intros Hfetch Hok.
  rewrite fetchUrlContent_cases; cbn zeta; rewrite Hfetch.
  unfold after_response; rewrite Hok; reflexivity.
Qed.

(** C4 at a 404 response: the result is
    [{content: "", error: "HTTP 404: Not Found"}]. *)
Lemma fetchUrlContent_http_error_404 :
  snd (fetchUrlContent (Fixture.fetch_always (Fulfilled Fixture.not_found_json))
         Fixture.page_url Js.VUndefined) =
  Fulfilled {| FetchResult.content := "";
               FetchResult.error := Some "HTTP 404: Not Found" |}.
Proof.
  apply (fetchUrlContent_http_error
           (Fixture.fetch_always (Fulfilled Fixture.not_found_json))
           Fixture.page_url Js.VUndefined Fixture.not_found_json);
    reflexivity.
Defined.

(** C1, as stated, fails for a response that is not OK: a 404 response
    declaring [application/json] does not contain ['text/html'], yet the
    error is the HTTP one, not ["Unsupported content type: .."]. *)
Lemma fetchUrlContent_content_type_after_status :
  Js.includes
    (Js.or_empty (Response.headers_get Fixture.not_found_json "content-type"))
    "text/html" = false
  /\ snd (fetchUrlContent
            (Fixture.fetch_always (Fulfilled Fixture.not_found_json))
            Fixture.page_url Js.VUndefined) =
     Fulfilled {| FetchResult.content := "";
                  FetchResult.error := Some "HTTP 404: Not Found" |}
  /\ snd (fetchUrlContent
            (Fixture.fetch_always (Fulfilled Fixture.not_found_json))
            Fixture.page_url Js.VUndefined) <>
     Fulfilled {| FetchResult.content := "";
                  FetchResult.error :=
                    Some "Unsupported content type: application/json" |}.
Proof.
  split; [reflexivity |].
  split; [reflexivity |].
  vm_compute; discriminate.
Qed.

(** C1, amended.  When the request ends with an OK response whose declared
    content type does not contain ['text/html'], [fetchUrlContent] returns
    empty content and the error ["Unsupported content type: <type>"], and
    [response.text()] is not called. *)
Theorem fetchUrlContent_unsupported_content_type
    (fetch : Js.value -> Js.value -> settled Response.t)
    (url timeout : Js.value) (response : Response.t) (contentType : string) :
  fetch url (timeout_param timeout) = Fulfilled response ->
  Response.ok response = true ->
  contentType = Js.or_empty (Response.headers_get response "content-type") ->
  Js.includes contentType "text/html" = false ->
  snd (fetchUrlContent fetch url timeout) =
  Fulfilled {| FetchResult.content := "";
               FetchResult.error :=
                 Some ("Unsupported content type: " +:+ contentType) |}
  /\ ReadText ∉ fst (fetchUrlContent fetch url timeout).
Proof.
  intros Hfetch Hok -> Hinc.
  rewrite fetchUrlContent_cases; cbn zeta; rewrite Hfetch.
  unfold after_response; rewrite Hok, Hinc; cbn.
  split; [reflexivity |].
  event_not_in_trace.
Qed.

Lemma fetchUrlContent_unsupported_content_type_json :
  snd (fetchUrlContent (Fixture.fetch_always (Fulfilled Fixture.ok_json))
         Fixture.page_url Js.VUndefined) =
  Fulfilled {| FetchResult.content := "";
               FetchResult.error :=
                 Some "Unsupported content type: application/json" |}
  /\ ReadText ∉ fst (fetchUrlContent
                       (Fixture.fetch_always (Fulfilled Fixture.ok_json))
                       Fixture.page_url Js.VUndefined).
Proof.
  apply (fetchUrlContent_unsupported_content_type
           (Fixture.fetch_always (Fulfilled Fixture.ok_json))
           Fixture.page_url Js.VUndefined Fixture.ok_json "application/json");
    reflexivity.
Defined.

(** C10.  When the request ends with an OK response that has no
    content-type header, the declared type is taken to be the empty string
    and is rejected: empty content, the error
    ["Unsupported content type: "], and [response.text()] is not called. *)
Theorem fetchUrlContent_missing_content_type
    (fetch : Js.value -> Js.value -> settled Response.t)
    (url timeout : Js.value) (response : Response.t) :
  fetch url (timeout_param timeout) = Fulfilled response ->
  Response.ok response = true ->
  Response.headers_get response "content-type" = None ->
  snd (fetchUrlContent fetch url timeout) =
  Fulfilled {| FetchResult.content := "";
               FetchResult.error := Some "Unsupported content type: " |}
  /\ ReadText ∉ fst (fetchUrlContent fetch url timeout).
Proof.
  intros Hfetch Hok Hnone.
  rewrite fetchUrlContent_cases; cbn zeta; rewrite Hfetch.
  unfold after_response; rewrite Hok, Hnone; cbn.
  split; [reflexivity |].
  event_not_in_trace.
Qed.

Lemma fetchUrlContent_missing_content_type_untyped :
  snd (fetchUrlContent (Fixture.fetch_always (Fulfilled Fixture.ok_untyped))
         Fixture.page_url Js.VUndefined) =
  Fulfilled {| FetchResult.content := "";
               FetchResult.error := Some "Unsupported content type: " |}
  /\ ReadText ∉ fst (fetchUrlContent
                       (Fixture.fetch_always (Fulfilled Fixture.ok_untyped))
                       Fixture.page_url Js.VUndefined).
Proof.
  apply (fetchUrlContent_missing_content_type
           (Fixture.fetch_always (Fulfilled Fixture.ok_untyped))
           Fixture.page_url Js.VUndefined Fixture.ok_untyped);
    reflexivity.
Defined.

(** C3.  Every call of [fetchUrlContent] returns a result, and in that
    result a non-null [error] comes with empty [content]. *)
Theorem fetchUrlContent_error_means_no_content
    (fetch : Js.value -> Js.value -> settled Response.t)
    (url timeout : Js.value) :
  exists result,
    snd (fetchUrlContent fetch url timeout) = Fulfilled result
    /\ (FetchResult.error result <> None -> FetchResult.content result = "").
Proof.
  rewrite fetchUrlContent_cases; cbn zeta.
  destruct (fetch url (timeout_param timeout)) as [response | error].
  - eexists; split; [reflexivity |].
    apply after_response_error_content.
  - eexists; split; [reflexivity |]. reflexivity.
Qed.

Lemma fetchUrlContent_error_means_no_content_404 :
  exists result,
    snd (fetchUrlContent (Fixture.fetch_always (Fulfilled Fixture.not_found_json))
           Fixture.page_url Js.VUndefined) = Fulfilled result
    /\ (FetchResult.error result <> None -> FetchResult.content result = "").
Proof.
  exact (fetchUrlContent_error_means_no_content
           (Fixture.fetch_always (Fulfilled Fixture.not_found_json))
           Fixture.page_url Js.VUndefined).
Defined.

(** C5, at the input on which it fails.  [fetch] rejects with the
    [TypeError] of an address that cannot be parsed; its message contains
    neither ['Failed to fetch'] nor ['TypeError'], so the [catch] block
    passes the message through instead of answering
    ["Invalid URL or network error"]. *)
Theorem fetchUrlContent_type_error_passes_through :
  Error.name Fixture.parse_failure = "TypeError"
  /\ snd (fetchUrlContent (Fixture.fetch_always (Rejected Fixture.parse_failure))
            (Js.VString "http://") Js.VUndefined) =
     Fulfilled {| FetchResult.content := "";
                  FetchResult.error := Some "Failed to parse URL from http://" |}
  /\ errorMessage Fixture.parse_failure <> "Invalid URL or network error".
Proof.
  split; [reflexivity |].
  split; [reflexivity |].
  vm_compute; discriminate.
Qed.

(** ** The message listener *)

(** [message.timeout || CONTENT_TIMEOUT] is never [undefined], so the
    default parameter of [fetchUrlContent] does not apply on top of it. *)
Lemma timeout_param_or (timeout : Js.value) :
  timeout_param (Js.or timeout (Js.VNumber (Js.Num CONTENT_TIMEOUT))) =
  Js.or timeout (Js.VNumber (Js.Num CONTENT_TIMEOUT)).
Proof.
  unfold Js.or.
  destruct (Js.truthy timeout) eqn:Htruthy; [| reflexivity].
  destruct timeout; [discriminate | reflexivity ..].
Qed.

(** The [fetchContent] branch of the listener, with the call of
    [fetchUrlContent] named. *)
Lemma onMessage_fetch_branch
    (fetch : Js.value -> Js.value -> settled Response.t)
    (message : Message.t) (sender : Sender.t) (h : gmap string Z) :
  Message.action message = Js.VString "fetchContent" ->
  exists result,
    snd (fetchUrlContent fetch (Message.url message)
           (Js.or (Message.timeout message)
                  (Js.VNumber (Js.Num CONTENT_TIMEOUT)))) = Fulfilled result
    /\ onMessage fetch message sender h =
       ({| sync_events :=
             [SetTimeout (Js.or (Message.timeout message)
                                (Js.VNumber (Js.Num CONTENT_TIMEOUT)));
              Fetch (Message.url message)];
           returned := true;
           async_events :=
             after_await
               (fst (fetchUrlContent fetch (Message.url message)
                       (Js.or (Message.timeout message)
                              (Js.VNumber (Js.Num CONTENT_TIMEOUT)))))
             ++ [SendResponse (ReplyFetch result)] |}, h).
Proof.
  intros Haction.
  destruct (fetchUrlContent_fulfilled fetch (Message.url message)
              (Js.or (Message.timeout message)
                     (Js.VNumber (Js.Num CONTENT_TIMEOUT)))) as [result Hres].
  exists result; split; [exact Hres |].
  unfold onMessage; rewrite Haction; cbn [Js.strict_eq_string String.eqb].
  change (String.eqb "fetchContent" "fetchContent") with true; cbn iota.
  pose proof (fetchUrlContent_before_await fetch (Message.url message)
                (Js.or (Message.timeout message)
                       (Js.VNumber (Js.Num CONTENT_TIMEOUT)))) as Hstart.
  rewrite timeout_param_or in Hstart.
  destruct (fetchUrlContent fetch (Message.url message) _) as [tr outcome].
  cbn [fst snd] in *; subst outcome; rewrite Hstart; reflexivity.
Qed.

(** C6, as stated, fails when [message.timeout] is present but falsy: with
    [timeout: 0] the listener arms the timer with 15000, not with the 0 that
    the message carries. *)
Lemma onMessage_fetchContent_zero_timeout :
  Message.timeout (Fixture.fetch_message (Js.VNumber (Js.Num 0))) =
  Js.VNumber (Js.Num 0)
  /\ sync_events
       (fst (onMessage (Fixture.fetch_always (Fulfilled Fixture.ok_html))
               (Fixture.fetch_message (Js.VNumber (Js.Num 0)))
               Fixture.side_panel ∅)) =
     [SetTimeout (Js.VNumber (Js.Num 15000)); Fetch Fixture.page_url]
  /\ sync_events
       (fst (onMessage (Fixture.fetch_always (Fulfilled Fixture.ok_html))
               (Fixture.fetch_message (Js.VNumber (Js.Num 0)))
               Fixture.side_panel ∅)) <>
     [SetTimeout (Js.VNumber (Js.Num 0)); Fetch Fixture.page_url].
Proof.
  split; [reflexivity |].
  split; [reflexivity |].
  vm_compute; discriminate.
Qed.

(** C6, amended.  For a message whose action is ["fetchContent"] the
    listener calls [fetchUrlContent] with [message.url] and with
    [message.timeout] when that is truthy, and with 15000 when it is absent
    or any other falsy value; it returns [true]; after it has returned, the
    result of that call is handed to [sendResponse]; [urlFetchHistory] is
    left as it was and has no influence on what the listener does. *)
Theorem onMessage_fetchContent
    (fetch : Js.value -> Js.value -> settled Response.t)
    (message : Message.t) (sender : Sender.t) (h : gmap string Z) :
  Message.action message = Js.VString "fetchContent" ->
  exists (timeout : Js.value) (result : FetchResult.t),
    (Js.truthy (Message.timeout message) = true ->
     timeout = Message.timeout message)
    /\ (Js.truthy (Message.timeout message) = false ->
        timeout = Js.VNumber (Js.Num 15000))
    /\ snd (fetchUrlContent fetch (Message.url message) timeout) =
       Fulfilled result
    /\ onMessage fetch message sender h =
       ({| sync_events := [SetTimeout timeout; Fetch (Message.url message)];
           returned := true;
           async_events :=
             after_await
               (fst (fetchUrlContent fetch (Message.url message) timeout))
             ++ [SendResponse (ReplyFetch result)] |},
        h)
    /\ (forall h' : gmap string Z,
          fst (onMessage fetch message sender h') =
          fst (onMessage fetch message sender h)).
Proof.
  intros Haction.
  destruct (onMessage_fetch_branch fetch message sender h Haction)
    as (result & Hres & Hmsg).
  exists (Js.or (Message.timeout message) (Js.VNumber (Js.Num CONTENT_TIMEOUT))),
    result.
  split; [intros Ht; unfold Js.or; rewrite Ht; reflexivity |].
  split; [intros Ht; unfold Js.or; rewrite Ht; reflexivity |].
  split; [exact Hres |].
  split; [exact Hmsg |].
  intros h'. rewrite Hmsg.
  destruct (onMessage_fetch_branch fetch message sender h' Haction)
    as (result' & Hres' & ->).
  rewrite Hres in Hres'; injection Hres' as <-; reflexivity.
Qed.

Lemma onMessage_fetchContent_html :
  onMessage (Fixture.fetch_always (Fulfilled Fixture.ok_html))
    (Fixture.fetch_message (Js.VNumber (Js.Num 5000))) Fixture.side_panel ∅ =
  ({| sync_events := [SetTimeout (Js.VNumber (Js.Num 5000));
                      Fetch Fixture.page_url];
      returned := true;
      async_events :=
        [ClearTimeout; ReadText; Await;
         SendResponse
           (ReplyFetch {| FetchResult.content := "<html></html>";
                          FetchResult.error := None |})] |}, ∅).
Proof.
  destruct (onMessage_fetchContent
              (Fixture.fetch_always (Fulfilled Fixture.ok_html))
              (Fixture.fetch_message (Js.VNumber (Js.Num 5000)))
              Fixture.side_panel ∅ eq_refl)
    as (timeout & result & Htruthy & _ & Hrun & Hmsg & _).
  rewrite Hmsg.
  rewrite (Htruthy eq_refl) in Hrun |- *.
  injection Hrun as <-.
  reflexivity.
Defined.

(** C9.  For a ["fetchContent"] message whose [timeout] is falsy (0, [null],
    [NaN], [undefined], ..) the listener calls [fetchUrlContent] with 15000,
    not with the value supplied. *)
Theorem onMessage_falsy_timeout
    (fetch : Js.value -> Js.value -> settled Response.t)
    (message : Message.t) (sender : Sender.t) (h : gmap string Z) :
  Message.action message = Js.VString "fetchContent" ->
  Js.truthy (Message.timeout message) = false ->
  let run :=
    fetchUrlContent fetch (Message.url message) (Js.VNumber (Js.Num 15000)) in
  exists result,
    snd run = Fulfilled result
    /\ fst (onMessage fetch message sender h) =
       {| sync_events := [SetTimeout (Js.VNumber (Js.Num 15000));
                          Fetch (Message.url message)];
          returned := true;
          async_events :=
            after_await (fst run) ++ [SendResponse (ReplyFetch result)] |}.
Proof.
  intros Haction Hfalsy run.
  destruct (onMessage_fetch_branch fetch message sender h Haction)
    as (result & Hres & ->).
  unfold Js.or in *; rewrite Hfalsy in *.
  exists result; split; [exact Hres | reflexivity].
Qed.

Lemma onMessage_falsy_timeout_zero :
  exists result,
    snd (fetchUrlContent (Fixture.fetch_always (Fulfilled Fixture.ok_html))
           Fixture.page_url (Js.VNumber (Js.Num 15000))) = Fulfilled result
    /\ fst (onMessage (Fixture.fetch_always (Fulfilled Fixture.ok_html))
              (Fixture.fetch_message (Js.VNumber (Js.Num 0)))
              Fixture.side_panel ∅) =
       {| sync_events := [SetTimeout (Js.VNumber (Js.Num 15000));
                          Fetch Fixture.page_url];
          returned := true;
          async_events :=
            after_await
              (fst (fetchUrlContent
                      (Fixture.fetch_always (Fulfilled Fixture.ok_html))
                      Fixture.page_url (Js.VNumber (Js.Num 15000))))
            ++ [SendResponse (ReplyFetch result)] |}.
Proof.
  apply (onMessage_falsy_timeout
           (Fixture.fetch_always (Fulfilled Fixture.ok_html))
           (Fixture.fetch_message (Js.VNumber (Js.Num 0)))
           Fixture.side_panel ∅);
    reflexivity.
Defined.

(** The values the claim names are falsy. *)
Lemma falsy_timeouts :
  Js.truthy (Js.VNumber (Js.Num 0)) = false
  /\ Js.truthy Js.VNull = false
  /\ Js.truthy (Js.VNumber Js.NaN) = false
  /\ Js.truthy Js.VUndefined = false.
Proof. repeat split. Qed.

(** ** The rate limiter *)

Section RateLimiter.

Variable URL_hostname : string -> option string.

(** [canFetchUrl] once the hostname is known. *)
Lemma canFetchUrl_parsed url domain now (h : gmap string Z) :
  URL_hostname url = Some domain ->
  canFetchUrl URL_hostname url now h =
  if rate_check (h !! domain) now then (true, <[domain := now]> h)
  else (false, h).
Proof.
  intros Hparse. unfold canFetchUrl; rewrite Hparse.
  unfold sbind, history_get, history_set, pure.
  destruct (rate_check (h !! domain) now); reflexivity.
Qed.

(** The clean-up loop only deletes: a binding found afterwards was there
    before. *)
Lemma for_of_delete_subset cutoff (entries : list (string * Z))
    (h : gmap string Z) d t :
  snd (for_of entries
         (fun '(domain, timestamp) =>
            if timestamp <? cutoff then history_delete domain else pure tt) h)
  !! d = Some t ->
  h !! d = Some t.
Proof.
  revert h; induction entries as [| [domain timestamp] rest IH]; intros h.
  - cbn; auto.
  - cbn [for_of]; unfold sbind at 1.
    destruct (timestamp <? cutoff); cbn [history_delete pure].
    + intros H. apply IH in H.
      apply lookup_delete_Some in H as [_ H]; exact H.
    + apply IH.
Qed.

(** An entry of the list that is older than the cut-off is deleted. *)
Lemma for_of_delete_old cutoff (entries : list (string * Z))
    (h : gmap string Z) d t :
  (d, t) ∈ entries -> t < cutoff ->
  snd (for_of entries
         (fun '(domain, timestamp) =>
            if timestamp <? cutoff then history_delete domain else pure tt) h)
  !! d = None.
Proof.
  intros Hin Hold; revert h.
  induction entries as [| [domain timestamp] rest IH]; intros h.
  - apply elem_of_nil in Hin as [].
  - cbn [for_of]; unfold sbind at 1.
    apply elem_of_cons in Hin as [Heq | Hin].
    + injection Heq as <- <-.
      destruct (Z.ltb_spec t cutoff) as [_ | Hge]; [| lia].
      cbn [history_delete].
      destruct (snd (for_of rest _ (delete d h)) !! d) as [t' |] eqn:Hl;
        [| reflexivity].
      apply for_of_delete_subset in Hl.
      rewrite lookup_delete_eq in Hl; discriminate.
    + destruct (timestamp <? cutoff); apply (IH Hin).
Qed.

(** A hostname all of whose listed entries are recent keeps its binding. *)
Lemma for_of_delete_recent cutoff (entries : list (string * Z))
    (h : gmap string Z) d :
  (forall t, (d, t) ∈ entries -> cutoff <= t) ->
  snd (for_of entries
         (fun '(domain, timestamp) =>
            if timestamp <? cutoff then history_delete domain else pure tt) h)
  !! d = h !! d.
Proof.
  revert h; induction entries as [| [domain timestamp] rest IH];
    intros h Hrecent.
  - reflexivity.
  - cbn [for_of]; unfold sbind at 1.
    assert (Hrest : forall t, (d, t) ∈ rest -> cutoff <= t)
      by (intros t Ht; apply Hrecent; right; exact Ht).
    destruct (Z.ltb_spec timestamp cutoff) as [Hold | _];
      cbn [history_delete pure].
    + rewrite (IH _ Hrest).
      apply lookup_delete_ne. intros ->.
      specialize (Hrecent timestamp ltac:(left)). lia.
    + apply (IH _ Hrest).
Qed.

Lemma cleanup_unfold now (h : gmap string Z) :
  cleanup now h =
  for_of (map_to_list h)
    (fun '(domain, timestamp) =>
       if timestamp <? now - 60 * 60 * 1000 then history_delete domain
       else pure tt) h.
Proof. reflexivity. Qed.

(** Timestamps held by [urlFetchHistory] are positive. *)
Lemma reachable_positive (h : gmap string Z) :
  reachable URL_hostname h ->
  forall d t, h !! d = Some t -> 0 < t.
Proof.
  induction 1 as [| h url now _ IH Hnow | h now _ IH]; intros d t Hl.
  - rewrite lookup_empty in Hl; discriminate.
  - destruct (URL_hostname url) as [domain |] eqn:Hparse.
    + rewrite (canFetchUrl_parsed _ _ _ _ Hparse) in Hl.
      destruct (rate_check (h !! domain) now); cbn [snd] in Hl.
      * destruct (decide (domain = d)) as [-> | Hne].
        -- rewrite lookup_insert_eq in Hl. injection Hl as <-. exact Hnow.
        -- rewrite lookup_insert_ne in Hl by exact Hne. eauto.
      * eauto.
    + unfold canFetchUrl in Hl; rewrite Hparse in Hl; cbn in Hl. eauto.
  - rewrite cleanup_unfold in Hl.
    apply for_of_delete_subset in Hl. eauto.
Qed.

End RateLimiter.

(** *** Claims about the rate limiter *)

(** C8.  When [new URL(url)] throws, [canFetchUrl] returns [true] and
    [urlFetchHistory] is left unchanged. *)
Theorem canFetchUrl_fail_open
    (URL_hostname : string -> option string)
    (url : string) (now : Z) (h : gmap string Z) :
  URL_hostname url = None ->
  canFetchUrl URL_hostname url now h = (true, h).
Proof. intros Hparse. unfold canFetchUrl; rewrite Hparse; reflexivity. Qed.

Lemma canFetchUrl_fail_open_not_a_url :
  canFetchUrl Fixture.hostname_table "not a url" 5000 {[ "a.com" := 4500 ]} =
  (true, {[ "a.com" := 4500 ]}).
Proof.
  apply (canFetchUrl_fail_open Fixture.hostname_table "not a url" 5000
           {[ "a.com" := 4500 ]}).
  reflexivity.
Defined.

(** C2, as stated, fails in its two-call sentence when the first of the
    two calls is itself refused.  With [a.com] recorded at 5000, a call at
    5900 is refused and records nothing; the call at 6000, only 100 ms
    later, is 1000 ms after the record and returns [true]. *)
Lemma canFetchUrl_second_call_after_refusal :
  reachable Fixture.hostname_table {[ "a.com" := 5000 ]}
  /\ canFetchUrl Fixture.hostname_table "https://a.com/x" 5900
       {[ "a.com" := 5000 ]} = (false, {[ "a.com" := 5000 ]})
  /\ 6000 - 5900 < 1000
  /\ fst (canFetchUrl Fixture.hostname_table "https://a.com/y" 6000
            (snd (canFetchUrl Fixture.hostname_table "https://a.com/x" 5900
                    {[ "a.com" := 5000 ]}))) = true.
Proof.
  split.
  - exact (reachable_canFetchUrl Fixture.hostname_table ∅ "https://a.com/x"
             5000 (reachable_init Fixture.hostname_table) eq_refl).
  - split; [reflexivity |]. split; [lia | reflexivity].
Qed.

(** C2, amended.  For a URL whose hostname parses, [canFetchUrl] returns
    [true] and stores the current time under the hostname when there is no
    record for it or the record is at least 1000 ms old; otherwise it
    returns [false] and leaves [urlFetchHistory] alone.  Hence, after a
    call that returned [true] at time [now], a call for the same hostname
    less than 1000 ms later is refused, and one 1000 ms later or more is
    permitted. *)
Theorem canFetchUrl_rate_limit
    (URL_hostname : string -> option string)
    (url : string) (domain : string) (now : Z) (h : gmap string Z) :
  reachable URL_hostname h ->
  URL_hostname url = Some domain ->
  ((h !! domain = None
    \/ exists t, h !! domain = Some t /\ 1000 <= now - t) ->
   canFetchUrl URL_hostname url now h = (true, <[domain := now]> h))
  /\ (~ (h !! domain = None
         \/ exists t, h !! domain = Some t /\ 1000 <= now - t) ->
      canFetchUrl URL_hostname url now h = (false, h))
  /\ (forall (url' : string) (later : Z),
        URL_hostname url' = Some domain ->
        0 < now ->
        fst (canFetchUrl URL_hostname url now h) = true ->
        (later - now < 1000 ->
         canFetchUrl URL_hostname url' later
           (snd (canFetchUrl URL_hostname url now h)) =
         (false, snd (canFetchUrl URL_hostname url now h)))
        /\ (1000 <= later - now ->
            fst (canFetchUrl URL_hostname url' later
                   (snd (canFetchUrl URL_hostname url now h))) = true)).
Proof.
  intros Hreach Hparse.
  pose proof (reachable_positive URL_hostname h Hreach domain) as Hpos.
  rewrite (canFetchUrl_parsed URL_hostname url domain now h Hparse).
  unfold rate_check, RATE_LIMIT_MS.
  split; [| split].
  - intros [Hnone | (t & Hsome & Hold)].
    + rewrite Hnone; reflexivity.
    + rewrite Hsome.
      destruct (Z.leb_spec 1000 (now - t)); [| lia].
      rewrite orb_true_r; reflexivity.
  - intros Hnot.
    destruct (h !! domain) as [t |] eqn:Hsome; [| tauto].
    specialize (Hpos t eq_refl).
    destruct (Z.eqb_spec t 0); [lia |].
    destruct (Z.leb_spec 1000 (now - t)); [| reflexivity].
    exfalso; apply Hnot; right; exists t; split; [reflexivity | lia].
  - intros url' later Hparse' Hnow Htrue.
    assert (Hh1 : (if match h !! domain with
                       | Some t => (t =? 0) || (1000 <=? now - t)
                       | None => true
                       end
                   then (true, <[domain := now]> h) else (false, h))
                  = (true, <[domain := now]> h)).
    { destruct (match h !! domain with
                | Some t => _ | None => true end); [reflexivity |].
      cbn in Htrue; discriminate. }
    rewrite Hh1; cbn [snd].
    rewrite (canFetchUrl_parsed URL_hostname url' domain later _ Hparse').
    rewrite lookup_insert_eq; unfold rate_check, RATE_LIMIT_MS.
    destruct (Z.eqb_spec now 0); [lia |]; cbn [orb].
    split; intros Hgap.
    + destruct (Z.leb_spec 1000 (later - now)); [lia | reflexivity].
    + destruct (Z.leb_spec 1000 (later - now)); [reflexivity | lia].
Qed.

(** C7.  After one run of the clean-up, an entry whose timestamp is below
    [now - 3600000] is gone, and an entry whose timestamp is not below it is
    still there with the same timestamp. *)
Theorem cleanup_retention
    (now : Z) (h : gmap string Z) (domain : string) (timestamp : Z) :
  h !! domain = Some timestamp ->
  (timestamp < now - 3600000 -> snd (cleanup now h) !! domain = None)
  /\ (now - 3600000 <= timestamp ->
      snd (cleanup now h) !! domain = Some timestamp).
Proof.
  intros Hentry; rewrite cleanup_unfold.
  change (60 * 60 * 1000) with 3600000.
  split; intros Hage.
  - apply (for_of_delete_old _ _ _ domain timestamp); [| exact Hage].
    apply elem_of_map_to_list; exact Hentry.
  - rewrite for_of_delete_recent; [exact Hentry |].
    intros t Ht. apply elem_of_map_to_list in Ht.
    rewrite Hentry in Ht; injection Ht as <-; exact Hage.
Qed.

Lemma cleanup_retention_old_and_recent :
  snd (cleanup 4000000 (<["a.com" := 5000]> {[ "b.org" := 3999999 ]}))
  !! "a.com" = None
  /\ snd (cleanup 4000000 (<["a.com" := 5000]> {[ "b.org" := 3999999 ]}))
     !! "b.org" = Some 3999999.
Proof.
  split.
  - apply (cleanup_retention 4000000
             (<["a.com" := 5000]> {[ "b.org" := 3999999 ]}) "a.com" 5000);
      [reflexivity | lia].
  - apply (cleanup_retention 4000000
             (<["a.com" := 5000]> {[ "b.org" := 3999999 ]}) "b.org" 3999999);
      [reflexivity | lia].
Defined.

Lemma canFetchUrl_rate_limit_two_calls :
  canFetchUrl Fixture.hostname_table "https://a.com/x" 5000 ∅ =
  (true, <["a.com" := 5000]> ∅)
  /\ canFetchUrl Fixture.hostname_table "https://a.com/y" 5900
       (snd (canFetchUrl Fixture.hostname_table "https://a.com/x" 5000 ∅)) =
     (false, snd (canFetchUrl Fixture.hostname_table "https://a.com/x" 5000 ∅))
  /\ fst (canFetchUrl Fixture.hostname_table "https://a.com/y" 6000
            (snd (canFetchUrl Fixture.hostname_table "https://a.com/x" 5000 ∅)))
     = true.
Proof.
  destruct (canFetchUrl_rate_limit Fixture.hostname_table
              "https://a.com/x" "a.com" 5000 ∅
              (reachable_init Fixture.hostname_table) eq_refl)
    as (Hpermit & _ & Hlater).
  split; [apply Hpermit; left; reflexivity |].
  split.
  - apply (Hlater "https://a.com/y" 5900); [reflexivity | lia | reflexivity | lia].
  - apply (Hlater "https://a.com/y" 6000); [reflexivity | lia | reflexivity | lia].
Defined.

(** Outside the reachable histories: a record equal to 0 passes [!lastFetch]
    and is treated like a missing one. *)
Lemma canFetchUrl_zero_record :
  canFetchUrl Fixture.hostname_table "https://a.com/x" 500 {[ "a.com" := 0 ]} =
  (true, <["a.com" := 500]> {[ "a.com" := 0 ]}).
Proof. reflexivity. Qed.

(** ** Further properties of the fetch wrapper *)

(** [String.prefix] finds [needle] at the start of [hay]. *)
Lemma prefix_append (needle hay : string) :
  String.prefix needle hay = true <-> exists post, hay = needle +:+ post.
Proof.
  revert hay; induction needle as [| a needle IH]; intros hay.
  - split; [intros _; exists hay; reflexivity |].
    intros _; destruct hay; reflexivity.
  - destruct hay as [| b hay]; cbn.
    + split; [discriminate | intros [post H]; discriminate].
    + destruct (ascii_dec a b) as [-> | Hne].
      * rewrite IH. split; intros [post H]; exists post.
        -- rewrite H; reflexivity.
        -- injection H as H; exact H.
      * split; [discriminate |].
        intros [post H]; injection H as H _; congruence.
Qed.

(** [hay.includes(needle)] holds exactly when [needle] occurs in [hay]. *)
Lemma includes_occurs (hay needle : string) :
  Js.includes hay needle = true <->
  exists pre post, hay = pre +:+ needle +:+ post.
Proof.
  induction hay as [| c hay IH]; cbn [Js.includes].
  - rewrite orb_false_r, prefix_append. split.
    + intros [post H]; exists "", post; exact H.
    + intros (pre & post & H). destruct pre; [| discriminate].
      exists post; exact H.
  - rewrite orb_true_iff, prefix_append, IH. split.
    + intros [[post H] | (pre & post & H)].
      * exists "", post; exact H.
      * exists (String c pre), post; rewrite H; reflexivity.
    + intros (pre & post & H). destruct pre as [| c' pre].
      * left; exists post; exact H.
      * right; injection H as _ H; exists pre, post; exact H.
Qed.

(** X1.  [fetchUrlContent] returns [{content: html, error: null}] exactly
    when the request ends with an OK response whose content type contains
    ['text/html'] and whose body reads as [html]. *)
Theorem fetchUrlContent_success_iff
    (fetch : Js.value -> Js.value -> settled Response.t)
    (url timeout : Js.value) (html : string) :
  snd (fetchUrlContent fetch url timeout) =
  Fulfilled {| FetchResult.content := html; FetchResult.error := None |}
  <->
  exists response,
    fetch url (timeout_param timeout) = Fulfilled response
    /\ Response.ok response = true
    /\ Js.includes
         (Js.or_empty (Response.headers_get response "content-type"))
         "text/html" = true
    /\ Response.text response = Fulfilled html.
Proof.
  rewrite fetchUrlContent_cases; cbn zeta.
  destruct (fetch url (timeout_param timeout)) as [response | error];
    cbn [snd].
  - unfold after_response.
    destruct (Response.ok response) eqn:Hok; cbn [negb].
    + destruct (Js.includes _ _) eqn:Hinc; cbn [negb snd].
      * destruct (Response.text response) as [body | error] eqn:Htext.
        -- split.
           ++ intros H; injection H as <-.
              exists response; repeat split; assumption.
           ++ intros (r & Hr & _ & _ & Hbody).
              injection Hr as <-. rewrite Htext in Hbody.
              injection Hbody as <-; reflexivity.
        -- split; [discriminate |].
           intros (r & Hr & _ & _ & Hbody).
           injection Hr as <-. rewrite Htext in Hbody; discriminate.
      * split; [discriminate |].
        intros (r & Hr & _ & Hinc' & _).
        injection Hr as <-. rewrite Hinc in Hinc'; discriminate.
    + split; [discriminate |].
      intros (r & Hr & Hok' & _).
      injection Hr as <-. rewrite Hok in Hok'; discriminate.
  - split; [discriminate |].
    intros (r & Hr & _); discriminate.
Qed.

(** X2.  When the request is aborted ([fetch] rejects with an error named
    ['AbortError']), whatever its message, the result is
    [{content: "", error: "Request timeout"}]; the timer is not cleared and
    the body is not read. *)
Theorem fetchUrlContent_timeout
    (fetch : Js.value -> Js.value -> settled Response.t)
    (url timeout : Js.value) (error : Error.t) :
  fetch url (timeout_param timeout) = Rejected error ->
  Error.name error = "AbortError" ->
  fetchUrlContent fetch url timeout =
  ([SetTimeout (timeout_param timeout); Fetch url; Await],
   Fulfilled {| FetchResult.content := "";
                FetchResult.error := Some "Request timeout" |}).
Proof.
  intros Hfetch Hname.
  rewrite fetchUrlContent_cases; cbn zeta; rewrite Hfetch.
  rewrite (errorMessage_abort error Hname); reflexivity.
Qed.

Lemma fetchUrlContent_timeout_aborted :
  fetchUrlContent (Fixture.fetch_always (Rejected Fixture.aborted))
    Fixture.page_url (Js.VNumber (Js.Num 200)) =
  ([SetTimeout (Js.VNumber (Js.Num 200)); Fetch Fixture.page_url; Await],
   Fulfilled {| FetchResult.content := "";
                FetchResult.error := Some "Request timeout" |}).
Proof.
  apply (fetchUrlContent_timeout
           (Fixture.fetch_always (Rejected Fixture.aborted))
           Fixture.page_url (Js.VNumber (Js.Num 200)) Fixture.aborted);
    reflexivity.
Defined.

(** X3.  When [fetch] rejects with an error that is not an abort and whose
    message contains ['Failed to fetch'], the result is
    [{content: "", error: "Network error or CORS blocked"}]. *)
Theorem fetchUrlContent_network_error
    (fetch : Js.value -> Js.value -> settled Response.t)
    (url timeout : Js.value) (error : Error.t) (pre post : string) :
  fetch url (timeout_param timeout) = Rejected error ->
  Error.name error <> "AbortError" ->
  Error.message error = pre +:+ "Failed to fetch" +:+ post ->
  snd (fetchUrlContent fetch url timeout) =
  Fulfilled {| FetchResult.content := "";
               FetchResult.error := Some "Network error or CORS blocked" |}.
Proof.
  intros Hfetch Hname Hmsg.
  rewrite fetchUrlContent_cases; cbn zeta; rewrite Hfetch; cbn [snd].
  rewrite (errorMessage_failed_to_fetch error Hname); [reflexivity |].
  apply includes_occurs; exists pre, post; exact Hmsg.
Qed.

Lemma fetchUrlContent_network_error_chrome :
  snd (fetchUrlContent
         (Fixture.fetch_always (Rejected Fixture.failed_to_fetch))
         Fixture.page_url Js.VUndefined) =
  Fulfilled {| FetchResult.content := "";
               FetchResult.error := Some "Network error or CORS blocked" |}.
Proof.
  apply (fetchUrlContent_network_error
           (Fixture.fetch_always (Rejected Fixture.failed_to_fetch))
           Fixture.page_url Js.VUndefined Fixture.failed_to_fetch "" "");
    [reflexivity | discriminate | reflexivity].
Defined.

(** X4.  When an OK HTML response is received but reading its body fails,
    the failure goes through the same [catch] block: the content is empty
    and the error is the mapped message of the failure. *)
Theorem fetchUrlContent_body_failure
    (fetch : Js.value -> Js.value -> settled Response.t)
    (url timeout : Js.value) (response : Response.t) (error : Error.t) :
  fetch url (timeout_param timeout) = Fulfilled response ->
  Response.ok response = true ->
  Js.includes (Js.or_empty (Response.headers_get response "content-type"))
    "text/html" = true ->
  Response.text response = Rejected error ->
  fetchUrlContent fetch url timeout =
  ([SetTimeout (timeout_param timeout); Fetch url; Await;
    ClearTimeout; ReadText; Await],
   Fulfilled {| FetchResult.content := "";
                FetchResult.error := Some (errorMessage error) |}).
Proof.
  intros Hfetch Hok Hinc Htext.
  rewrite fetchUrlContent_cases; cbn zeta; rewrite Hfetch.
  unfold after_response; rewrite Hok, Hinc, Htext; reflexivity.
Qed.

Lemma fetchUrlContent_body_failure_stream :
  fetchUrlContent
    (Fixture.fetch_always (Fulfilled Fixture.ok_html_unreadable))
    Fixture.page_url Js.VUndefined =
  ([SetTimeout (Js.VNumber (Js.Num 15000)); Fetch Fixture.page_url; Await;
    ClearTimeout; ReadText; Await],
   Fulfilled {| FetchResult.content := "";
                FetchResult.error := Some "network error" |}).
Proof.
  apply (fetchUrlContent_body_failure
           (Fixture.fetch_always (Fulfilled Fixture.ok_html_unreadable))
           Fixture.page_url Js.VUndefined Fixture.ok_html_unreadable
           Fixture.stream_failure);
    reflexivity.
Defined.

(** Closes [e ∈ tr -> P] for an explicit trace [tr] in which [e] does not
    occur. *)
Ltac event_absent :=
  let H := fresh in
  intros H; exfalso; revert H; event_not_in_trace.

(** X5.  One call of [fetchUrlContent] arms one timer and issues one
    request, however the request ends: there is no retry. *)
Theorem fetchUrlContent_single_attempt
    (fetch : Js.value -> Js.value -> settled Response.t)
    (url timeout : Js.value) :
  List.filter is_Fetch (fst (fetchUrlContent fetch url timeout)) = [Fetch url]
  /\ List.filter is_SetTimeout (fst (fetchUrlContent fetch url timeout)) =
     [SetTimeout (timeout_param timeout)].
Proof.
  rewrite fetchUrlContent_cases; cbn zeta.
  destruct (fetch url (timeout_param timeout)) as [response | error];
    [| split; reflexivity].
  unfold after_response.
  destruct (negb (Response.ok response)); [split; reflexivity |].
  destruct (negb (Js.includes _ _)); split; reflexivity.
Qed.

(** X6.  The timer is cleared exactly when [fetch] produces a response; when
    [fetch] rejects, [clearTimeout] is never called. *)
Theorem fetchUrlContent_clears_timer_iff
    (fetch : Js.value -> Js.value -> settled Response.t)
    (url timeout : Js.value) :
  ClearTimeout ∈ fst (fetchUrlContent fetch url timeout) <->
  exists response, fetch url (timeout_param timeout) = Fulfilled response.
Proof.
  rewrite fetchUrlContent_cases; cbn zeta.
  destruct (fetch url (timeout_param timeout)) as [response | error];
    cbn [fst].
  - split; [intros _; exists response; reflexivity |].
    intros _. unfold after_response.
    destruct (negb (Response.ok response));
      [| destruct (negb (Js.includes _ _))];
      cbn; do 3 right; left.
  - split; [event_absent | intros [response H]; discriminate].
Qed.

(** X7.  The body is read exactly when the response is OK and its content
    type has ['text/html'] somewhere inside it (case-sensitive), e.g. with a
    charset parameter after it. *)
Theorem fetchUrlContent_reads_body_iff
    (fetch : Js.value -> Js.value -> settled Response.t)
    (url timeout : Js.value) :
  ReadText ∈ fst (fetchUrlContent fetch url timeout) <->
  exists response pre post,
    fetch url (timeout_param timeout) = Fulfilled response
    /\ Response.ok response = true
    /\ Js.or_empty (Response.headers_get response "content-type") =
       pre +:+ "text/html" +:+ post.
Proof.
  rewrite fetchUrlContent_cases; cbn zeta.
  destruct (fetch url (timeout_param timeout)) as [response | error];
    cbn [fst].
  - unfold after_response.
    destruct (Response.ok response) eqn:Hok; cbn [negb].
    + destruct (Js.includes _ _) eqn:Hinc; cbn [negb fst app].
      * split.
        -- intros _. apply includes_occurs in Hinc as (pre & post & H).
           exists response, pre, post; repeat split; assumption.
        -- intros _. do 4 right; left.
      * split; [event_absent |].
        intros (r & pre & post & Hr & _ & Hct). injection Hr as <-.
        assert (Js.includes
                  (Js.or_empty (Response.headers_get response "content-type"))
                  "text/html" = true) as Hyes
          by (apply includes_occurs; exists pre, post; exact Hct).
        rewrite Hinc in Hyes; discriminate.
    + split; [cbn; event_absent |].
      intros (r & pre & post & Hr & Hok' & _). injection Hr as <-.
      rewrite Hok in Hok'; discriminate.
  - split; [event_absent |].
    intros (r & pre & post & Hr & _); discriminate.
Qed.

(** ** Further properties of the message listener *)

(** [v === 'literal'] fails exactly for values other than that string. *)
Lemma strict_eq_string_false (v : Js.value) (lit : string) :
  v <> Js.VString lit -> Js.strict_eq_string v lit = false.
Proof.
  intros Hne. destruct v as [| | b | n | s]; try reflexivity.
  cbn. destruct (String.eqb_spec s lit) as [-> | _]; [congruence | reflexivity].
Qed.


(** The listener on a message that is neither a fetch request nor a ping:
    both remaining exits return [false] without calling [sendResponse]. *)
Lemma onMessage_fall_through
    (fetch : Js.value -> Js.value -> settled Response.t)
    (message : Message.t) (sender : Sender.t) (h : gmap string Z) :
  Message.action message <> Js.VString "fetchContent" ->
  Message.action message <> Js.VString "backgroundPing" ->
  onMessage fetch message sender h =
  ({| sync_events := []; returned := false; async_events := [] |}, h).
Proof.
  intros Hfetch Hping. unfold onMessage.
  rewrite (strict_eq_string_false _ _ Hfetch).
  rewrite (strict_eq_string_false _ _ Hping).
  destruct (Sender.has_tab sender && _); reflexivity.
Qed.

Lemma onMessage_ping
    (fetch : Js.value -> Js.value -> settled Response.t)
    (message : Message.t) (sender : Sender.t) (h : gmap string Z) :
  Message.action message = Js.VString "backgroundPing" ->
  onMessage fetch message sender h =
  ({| sync_events := [SendResponse (ReplyStatus "background active")];
      returned := true;
      async_events := [] |}, h).
Proof.
  intros Hping. unfold onMessage; rewrite Hping.
  destruct (Sender.has_tab sender); reflexivity.
Qed.


(** X8.  A message whose action is ['backgroundPing'] is answered before the
    listener returns with [{status: 'background active'}], whoever sent it;
    the listener returns [true], nothing happens later and
    [urlFetchHistory] is unchanged. *)
Theorem onMessage_backgroundPing
    (fetch : Js.value -> Js.value -> settled Response.t)
    (message : Message.t) (sender : Sender.t) (h : gmap string Z) :
  Message.action message = Js.VString "backgroundPing" ->
  onMessage fetch message sender h =
  ({| sync_events := [SendResponse (ReplyStatus "background active")];
      returned := true;
      async_events := [] |}, h).
Proof. exact (onMessage_ping fetch message sender h). Qed.

Lemma onMessage_backgroundPing_from_tab :
  onMessage (Fixture.fetch_always (Fulfilled Fixture.ok_html))
    {| Message.action := Js.VString "backgroundPing";
       Message.url := Js.VUndefined;
       Message.timeout := Js.VUndefined |}
    {| Sender.tab := Some 7 |} {[ "a.com" := 4500 ]} =
  ({| sync_events := [SendResponse (ReplyStatus "background active")];
      returned := true;
      async_events := [] |}, {[ "a.com" := 4500 ]}).
Proof.
  apply (onMessage_backgroundPing
           (Fixture.fetch_always (Fulfilled Fixture.ok_html))
           {| Message.action := Js.VString "backgroundPing";
              Message.url := Js.VUndefined;
              Message.timeout := Js.VUndefined |}
           {| Sender.tab := Some 7 |} {[ "a.com" := 4500 ]}).
  reflexivity.
Defined.

(** X9.  Every message whose action is neither ['fetchContent'] nor
    ['backgroundPing'] (the four relayed actions, unknown actions, a missing
    or non-string action) gets no response: the listener returns [false],
    calls nothing and leaves [urlFetchHistory] unchanged, whether or not the
    sender is a tab. *)
Theorem onMessage_unanswered
    (fetch : Js.value -> Js.value -> settled Response.t)
    (message : Message.t) (sender : Sender.t) (h : gmap string Z) :
  Message.action message <> Js.VString "fetchContent" ->
  Message.action message <> Js.VString "backgroundPing" ->
  onMessage fetch message sender h =
  ({| sync_events := []; returned := false; async_events := [] |}, h).
Proof. exact (onMessage_fall_through fetch message sender h). Qed.

Lemma onMessage_unanswered_progressUpdate :
  onMessage (Fixture.fetch_always (Fulfilled Fixture.ok_html))
    {| Message.action := Js.VString "progressUpdate";
       Message.url := Js.VUndefined;
       Message.timeout := Js.VUndefined |}
    {| Sender.tab := Some 7 |} ∅ =
  ({| sync_events := []; returned := false; async_events := [] |}, ∅).
Proof.
  apply (onMessage_unanswered
           (Fixture.fetch_always (Fulfilled Fixture.ok_html))
           {| Message.action := Js.VString "progressUpdate";
              Message.url := Js.VUndefined;
              Message.timeout := Js.VUndefined |}
           {| Sender.tab := Some 7 |} ∅);
    discriminate.
Defined.

(** X10.  What the listener does never depends on the sender: the test of
    [sender.tab] only chooses between two exits that both return [false]. *)
Theorem onMessage_sender_irrelevant
    (fetch : Js.value -> Js.value -> settled Response.t)
    (message : Message.t) (sender sender' : Sender.t) (h : gmap string Z) :
  onMessage fetch message sender h = onMessage fetch message sender' h.
Proof.
  unfold onMessage.
  destruct (Js.strict_eq_string (Message.action message) "fetchContent");
    [reflexivity |].
  destruct (Js.strict_eq_string (Message.action message) "backgroundPing")
    eqn:Hping.
  - destruct (Message.action message) as [| | | | s]; try discriminate.
    cbn in Hping. apply String.eqb_eq in Hping as ->.
    destruct (Sender.has_tab sender), (Sender.has_tab sender'); reflexivity.
  - destruct (Sender.has_tab sender && _), (Sender.has_tab sender' && _);
      reflexivity.
Qed.


(** X12.  A ['fetchContent'] request whose response is not OK is answered,
    after the listener has returned, with
    [{content: "", error: "HTTP <status>: <statusText>"}]. *)
Theorem onMessage_relays_http_error
    (fetch : Js.value -> Js.value -> settled Response.t)
    (message : Message.t) (sender : Sender.t) (h : gmap string Z)
    (response : Response.t) :
  Message.action message = Js.VString "fetchContent" ->
  fetch (Message.url message)
    (Js.or (Message.timeout message) (Js.VNumber (Js.Num CONTENT_TIMEOUT))) =
  Fulfilled response ->
  Response.ok response = false ->
  onMessage fetch message sender h =
  ({| sync_events :=
        [SetTimeout (Js.or (Message.timeout message)
                       (Js.VNumber (Js.Num CONTENT_TIMEOUT)));
         Fetch (Message.url message)];
      returned := true;
      async_events :=
        [ClearTimeout;
         SendResponse
           (ReplyFetch
              {| FetchResult.content := "";
                 FetchResult.error :=
                   Some ("HTTP " +:+ pretty (Response.status response)
                         +:+ ": " +:+ Response.statusText response) |})] |},
   h).
Proof.
  intros Haction Hfetch Hok.
  destruct (onMessage_fetch_branch fetch message sender h Haction)
    as (result & Hres & ->).
  rewrite fetchUrlContent_cases in Hres |- *; cbn zeta in Hres |- *.
  rewrite timeout_param_or, Hfetch in Hres |- *.
  unfold after_response in Hres |- *; rewrite Hok in Hres |- *.
  cbn in Hres |- *. injection Hres as <-. reflexivity.
Qed.

Lemma onMessage_relays_http_error_404 :
  onMessage (Fixture.fetch_always (Fulfilled Fixture.not_found_json))
    (Fixture.fetch_message Js.VUndefined) Fixture.side_panel ∅ =
  ({| sync_events := [SetTimeout (Js.VNumber (Js.Num 15000));
                      Fetch Fixture.page_url];
      returned := true;
      async_events :=
        [ClearTimeout;
         SendResponse
           (ReplyFetch {| FetchResult.content := "";
                          FetchResult.error := Some "HTTP 404: Not Found" |})]
   |}, ∅).
Proof.
  apply (onMessage_relays_http_error
           (Fixture.fetch_always (Fulfilled Fixture.not_found_json))
           (Fixture.fetch_message Js.VUndefined) Fixture.side_panel ∅
           Fixture.not_found_json);
    reflexivity.
Defined.

(** ** Further properties of the rate limiter *)

(** The record of a hostname after the clean-up. *)
Lemma cleanup_lookup (now : Z) (h : gmap string Z) (d : string) :
  snd (cleanup now h) !! d =
  match h !! d with
  | Some t => if t <? now - 3600000 then None else Some t
  | None => None
  end.
Proof.
  rewrite cleanup_unfold. change (60 * 60 * 1000) with 3600000.
  destruct (h !! d) as [t |] eqn:Hd.
  - destruct (Z.ltb_spec t (now - 3600000)) as [Hold | Hrecent].
    + apply (for_of_delete_old _ _ _ d t); [| exact Hold].
      apply elem_of_map_to_list; exact Hd.
    + rewrite for_of_delete_recent; [exact Hd |].
      intros t' Ht'. apply elem_of_map_to_list in Ht'.
      rewrite Hd in Ht'; injection Ht' as <-; exact Hrecent.
  - rewrite for_of_delete_recent; [exact Hd |].
    intros t' Ht'. apply elem_of_map_to_list in Ht'.
    rewrite Hd in Ht'; discriminate.
Qed.

(** The record of a hostname after [canFetchUrl] ran for [domain]. *)
Lemma canFetchUrl_lookup
    (URL_hostname : string -> option string)
    (url domain : string) (now : Z) (h : gmap string Z) (d : string) :
  URL_hostname url = Some domain ->
  snd (canFetchUrl URL_hostname url now h) !! d =
  if decide (domain = d) then
    if rate_check (h !! domain) now then Some now else h !! d
  else h !! d.
Proof.
  intros Hparse. rewrite (canFetchUrl_parsed _ _ _ _ _ Hparse).
  destruct (rate_check (h !! domain) now); cbn [snd].
  - rewrite lookup_insert. reflexivity.
  - destruct (decide (domain = d)); reflexivity.
Qed.

(** X13.  [canFetchUrl] touches at most the record of the URL's own
    hostname: every other hostname keeps the record it had, or stays
    without one. *)
Theorem canFetchUrl_other_hosts
    (URL_hostname : string -> option string)
    (url : string) (now : Z) (h : gmap string Z) (d : string) :
  URL_hostname url <> Some d ->
  snd (canFetchUrl URL_hostname url now h) !! d = h !! d.
Proof.
  intros Hother.
  destruct (URL_hostname url) as [domain |] eqn:Hparse.
  - rewrite (canFetchUrl_lookup URL_hostname url domain now h d Hparse).
    destruct (decide (domain = d)) as [-> | _]; [congruence | reflexivity].
  - unfold canFetchUrl; rewrite Hparse; reflexivity.
Qed.

Lemma canFetchUrl_other_hosts_b_org :
  snd (canFetchUrl Fixture.hostname_table "https://a.com/x" 9000
         (<["a.com" := 5000]> {[ "b.org" := 8900 ]})) !! "b.org" =
  (<["a.com" := 5000]> {[ "b.org" := 8900 ]} : gmap string Z) !! "b.org".
Proof.
  apply (canFetchUrl_other_hosts Fixture.hostname_table "https://a.com/x" 9000
           (<["a.com" := 5000]> {[ "b.org" := 8900 ]}) "b.org").
  discriminate.
Defined.

(** X14.  [canFetchUrl] never removes a record: a hostname that has one
    before the call has one after it. *)
Theorem canFetchUrl_keeps_hosts
    (URL_hostname : string -> option string)
    (url : string) (now : Z) (h : gmap string Z) :
  dom h ⊆ dom (snd (canFetchUrl URL_hostname url now h)).
Proof.
  intros d Hd. apply elem_of_dom in Hd as [t Ht]. apply elem_of_dom.
  destruct (URL_hostname url) as [domain |] eqn:Hparse.
  - rewrite (canFetchUrl_lookup URL_hostname url domain now h d Hparse).
    destruct (decide (domain = d)) as [-> | _]; [| eauto].
    destruct (rate_check (h !! d) now); eauto.
  - unfold canFetchUrl; rewrite Hparse; cbn. eauto.
Qed.

(** X15.  In every [urlFetchHistory] the script can reach, each key is a
    hostname that [new URL(..)] produced for some URL passed to
    [canFetchUrl], and each timestamp is a positive clock reading. *)
Theorem reachable_records
    (URL_hostname : string -> option string) (h : gmap string Z) :
  reachable URL_hostname h ->
  forall d t,
    h !! d = Some t ->
    0 < t /\ exists url, URL_hostname url = Some d.
Proof.
  induction 1 as [| h url now _ IH Hnow | h now _ IH]; intros d t Hl.
  - rewrite lookup_empty in Hl; discriminate.
  - destruct (URL_hostname url) as [domain |] eqn:Hparse.
    + rewrite (canFetchUrl_lookup URL_hostname url domain now h d Hparse) in Hl.
      destruct (decide (domain = d)) as [-> | _]; [| eauto].
      destruct (rate_check (h !! d) now); [| eauto].
      injection Hl as <-. split; [exact Hnow | eauto].
    + unfold canFetchUrl in Hl; rewrite Hparse in Hl; cbn in Hl. eauto.
  - rewrite cleanup_lookup in Hl.
    destruct (h !! d) as [t' |] eqn:Hd; [| discriminate].
    destruct (t' <? now - 3600000); [discriminate |].
    injection Hl as <-. eauto.
Qed.

Lemma reachable_records_a_com :
  0 < 5000 /\ exists url, Fixture.hostname_table url = Some "a.com".
Proof.
  apply (reachable_records Fixture.hostname_table
           (snd (canFetchUrl Fixture.hostname_table "https://a.com/x" 5000 ∅))
           (reachable_canFetchUrl Fixture.hostname_table ∅ "https://a.com/x"
              5000 (reachable_init Fixture.hostname_table) ltac:(lia))
           "a.com" 5000).
  reflexivity.
Defined.

(** X16.  The clean-up is a filter: afterwards [urlFetchHistory] holds
    exactly the records whose timestamp is not below [now - 3600000], each
    unchanged; nothing is added. *)
Theorem cleanup_is_filter (now : Z) (h : gmap string Z) :
  snd (cleanup now h) =
  filter (fun record : string * Z => now - 3600000 <= record.2) h.
Proof.
  apply map_eq; intros d. rewrite cleanup_lookup.
  destruct (h !! d) as [t |] eqn:Hd.
  - destruct (Z.ltb_spec t (now - 3600000)) as [Hold | Hrecent]; symmetry.
    + apply map_lookup_filter_None; right.
      intros t' Ht'; rewrite Hd in Ht'; injection Ht' as <-; cbn; lia.
    + apply map_lookup_filter_Some; split; [exact Hd | exact Hrecent].
  - symmetry. apply map_lookup_filter_None; left; exact Hd.
Qed.

(** X17.  A later clean-up absorbs an earlier one: running it at [now] and
    then at [now' >= now] leaves the same map as running it at [now']
    alone.  With [now' = now] the clean-up is idempotent. *)
Theorem cleanup_absorbs (now now' : Z) (h : gmap string Z) :
  now <= now' ->
  snd (cleanup now' (snd (cleanup now h))) = snd (cleanup now' h).
Proof.
  intros Hle. apply map_eq; intros d. rewrite !cleanup_lookup.
  destruct (h !! d) as [t |]; [| reflexivity].
  destruct (Z.ltb_spec t (now - 3600000)) as [Hold | Hrecent];
    [| reflexivity].
  destruct (Z.ltb_spec t (now' - 3600000)); [reflexivity | lia].
Qed.

Lemma cleanup_absorbs_twice :
  snd (cleanup 4600000
         (snd (cleanup 4000000
                 (<["a.com" := 5000]> {[ "b.org" := 3999999 ]})))) =
  snd (cleanup 4600000 (<["a.com" := 5000]> {[ "b.org" := 3999999 ]})).
Proof.
  apply (cleanup_absorbs 4000000 4600000
           (<["a.com" := 5000]> {[ "b.org" := 3999999 ]})).
  lia.
Defined.

(** X18.  The clean-up does not change what the gate answers afterwards: for
    a call at [later >= now], [canFetchUrl] returns the same boolean on the
    cleaned map as on the uncleaned one, and cleaning before the call or
    after it leaves the same map. *)
Theorem cleanup_canFetchUrl_commute
    (URL_hostname : string -> option string)
    (url : string) (now later : Z) (h : gmap string Z) :
  now <= later ->
  canFetchUrl URL_hostname url later (snd (cleanup now h)) =
  (fst (canFetchUrl URL_hostname url later h),
   snd (cleanup now (snd (canFetchUrl URL_hostname url later h)))).
Proof.
  intros Hle.
  destruct (URL_hostname url) as [domain |] eqn:Hparse.
  - assert (Hgate : rate_check (snd (cleanup now h) !! domain) later =
                    rate_check (h !! domain) later).
    { rewrite cleanup_lookup. destruct (h !! domain) as [t |]; [| reflexivity].
      destruct (Z.ltb_spec t (now - 3600000)) as [Hold | _]; [| reflexivity].
      unfold rate_check, RATE_LIMIT_MS.
      destruct (Z.leb_spec 1000 (later - t)); [| lia].
      rewrite orb_true_r; reflexivity. }
    rewrite !(canFetchUrl_parsed URL_hostname url domain later _ Hparse), Hgate.
    destruct (rate_check (h !! domain) later) eqn:Hcheck; cbn [fst snd];
      [| reflexivity].
    f_equal. apply map_eq; intros d.
    rewrite cleanup_lookup.
    destruct (decide (domain = d)) as [<- | Hne].
    + rewrite !lookup_insert_eq.
      destruct (Z.ltb_spec later (now - 3600000)); [lia | reflexivity].
    + rewrite !lookup_insert_ne by exact Hne.
      rewrite cleanup_lookup; reflexivity.
  - unfold canFetchUrl; rewrite Hparse; cbn. reflexivity.
Qed.

Lemma cleanup_canFetchUrl_commute_a_com :
  canFetchUrl Fixture.hostname_table "https://a.com/x" 4000500
    (snd (cleanup 4000000 (<["a.com" := 5000]> {[ "b.org" := 3999999 ]}))) =
  (fst (canFetchUrl Fixture.hostname_table "https://a.com/x" 4000500
          (<["a.com" := 5000]> {[ "b.org" := 3999999 ]})),
   snd (cleanup 4000000
          (snd (canFetchUrl Fixture.hostname_table "https://a.com/x" 4000500
                  (<["a.com" := 5000]> {[ "b.org" := 3999999 ]}))))).
Proof.
  apply (cleanup_canFetchUrl_commute Fixture.hostname_table "https://a.com/x"
           4000000 4000500 (<["a.com" := 5000]> {[ "b.org" := 3999999 ]})).
  lia.
Defined.

(** *** Sequences of calls *)

Lemma canFetchUrl_calls_cons
    (URL_hostname : string -> option string)
    (url : string) (now : Z) (rest : list (string * Z)) (h : gmap string Z) :
  canFetchUrl_calls URL_hostname ((url, now) :: rest) h =
  (fst (canFetchUrl URL_hostname url now h)
   :: fst (canFetchUrl_calls URL_hostname rest
             (snd (canFetchUrl URL_hostname url now h))),
   snd (canFetchUrl_calls URL_hostname rest
          (snd (canFetchUrl URL_hostname url now h)))).
Proof.
  cbn [canFetchUrl_calls]. unfold sbind, pure.
  destruct (canFetchUrl URL_hostname url now h) as [answer h1]; cbn [fst snd].
  destruct (canFetchUrl_calls URL_hostname rest h1) as [answers h2].
  reflexivity.
Qed.

(** A positive record only moves forward, and by at least the interval. *)
Lemma canFetchUrl_record_grows
    (URL_hostname : string -> option string)
    (url : string) (now : Z) (h : gmap string Z) (d : string) (r : Z) :
  0 < now -> h !! d = Some r -> 0 < r ->
  exists r', snd (canFetchUrl URL_hostname url now h) !! d = Some r'
             /\ r <= r' /\ 0 < r'.
Proof.
  intros Hnow Hd Hr.
  destruct (URL_hostname url) as [domain |] eqn:Hparse.
  - rewrite (canFetchUrl_lookup URL_hostname url domain now h d Hparse).
    destruct (decide (domain = d)) as [-> | _]; [| exists r; auto with lia].
    rewrite Hd. unfold rate_check, RATE_LIMIT_MS.
    destruct (Z.eqb_spec r 0); [lia |]. cbn [orb].
    destruct (Z.leb_spec 1000 (now - r)); [exists now | exists r];
      auto with lia.
  - unfold canFetchUrl; rewrite Hparse; cbn. exists r; auto with lia.
Qed.

(** Once a hostname has a positive record [r], every later permitted call
    for it comes at [r + 1000] or after. *)
Lemma calls_after_record
    (URL_hostname : string -> option string)
    (requests : list (string * Z)) (d : string) :
  Forall (fun request : string * Z => 0 < request.2) requests ->
  forall (h : gmap string Z) (r : Z) (j : nat) (url : string) (t : Z),
    h !! d = Some r -> 0 < r ->
    requests !! j = Some (url, t) ->
    URL_hostname url = Some d ->
    fst (canFetchUrl_calls URL_hostname requests h) !! j = Some true ->
    r + 1000 <= t.
Proof.
  induction 1 as [| [url0 t0] rest Ht0 _ IH]; intros h r j url t Hd Hr Hj Hparse Hans.
  - rewrite lookup_nil in Hj; discriminate.
  - rewrite canFetchUrl_calls_cons in Hans; cbn [fst] in Hans.
    cbn in Ht0. destruct j as [| j]; cbn in Hj, Hans.
    + injection Hj as -> ->. injection Hans as Hans.
      rewrite (canFetchUrl_parsed URL_hostname url d t h Hparse), Hd in Hans.
      unfold rate_check, RATE_LIMIT_MS in Hans.
      destruct (Z.eqb_spec r 0); [lia |]. cbn [orb] in Hans.
      destruct (Z.leb_spec 1000 (t - r)); [lia | discriminate].
    + destruct (canFetchUrl_record_grows URL_hostname url0 t0 h d r Ht0 Hd Hr)
        as (r' & Hd' & Hle & Hr').
      pose proof (IH _ r' j url t Hd' Hr' Hj Hparse Hans). lia.
Qed.

(** X19.  The limiter's guarantee: in any sequence of [canFetchUrl] calls
    with positive clock readings, two permitted calls for the same hostname
    are at least 1000 ms apart, the later one coming later on the clock,
    whatever [urlFetchHistory] held at the start. *)
Theorem permitted_calls_spaced
    (URL_hostname : string -> option string)
    (requests : list (string * Z)) (h : gmap string Z)
    (i j : nat) (url url' : string) (t t' : Z) (d : string) :
  Forall (fun request : string * Z => 0 < request.2) requests ->
  (i < j)%nat ->
  requests !! i = Some (url, t) ->
  requests !! j = Some (url', t') ->
  URL_hostname url = Some d ->
  URL_hostname url' = Some d ->
  fst (canFetchUrl_calls URL_hostname requests h) !! i = Some true ->
  fst (canFetchUrl_calls URL_hostname requests h) !! j = Some true ->
  t + 1000 <= t'.
Proof.
  intros Hpos; revert h i j.
  induction Hpos as [| [url0 t0] rest Ht0 Hrest IH];
    intros h i j Hij Hi Hj Hparse Hparse' Hansi Hansj.
  - rewrite lookup_nil in Hi; discriminate.
  - rewrite canFetchUrl_calls_cons in Hansi, Hansj; cbn [fst] in Hansi, Hansj.
    cbn in Ht0.
    destruct j as [| j]; [lia |]. cbn in Hj, Hansj.
    destruct i as [| i]; cbn in Hi, Hansi.
    + injection Hi as -> ->. injection Hansi as Hansi.
      assert (Hrec : snd (canFetchUrl URL_hostname url t h) !! d = Some t).
      { rewrite (canFetchUrl_parsed URL_hostname url d t h Hparse) in Hansi |- *.
        destruct (rate_check (h !! d) t); [| discriminate].
        apply lookup_insert_eq. }
      exact (calls_after_record URL_hostname rest d Hrest _ t j url' t'
               Hrec Ht0 Hj Hparse' Hansj).
    + apply (IH (snd (canFetchUrl URL_hostname url0 t0 h)) i j);
        [lia | assumption ..].
Qed.

Lemma permitted_calls_spaced_three_calls :
  fst (canFetchUrl_calls Fixture.hostname_table
         [("https://a.com/x", 5000); ("https://a.com/y", 5900);
          ("https://a.com/y", 6000)] ∅) = [true; false; true]
  /\ 5000 + 1000 <= 6000.
Proof.
  split; [reflexivity |].
  apply (permitted_calls_spaced Fixture.hostname_table
           [("https://a.com/x", 5000); ("https://a.com/y", 5900);
            ("https://a.com/y", 6000)]
           ∅ 0 2 "https://a.com/x" "https://a.com/y" 5000 6000 "a.com");
    [repeat (constructor; [cbn; lia |]); constructor
    | lia | reflexivity ..].
Defined.
